(** * Landscaper: secret providers and reconciliation engine

    A shallow embedding of [pkg/landscaper/secrets.go] and of the
    executor functions exercised by [pkg/landscaper/executor_test.go],
    with the properties of the design document proved about them.

    Conventions of the embedding:
    - a Go [string] is a [string] (a sequence of bytes), a [[]byte] is a
      [list byte], a Go [map] is a [gmap];
    - a Go [error] is an [option error], [None] being [nil];
    - calls to the collaborators (Kubernetes client, chart loader, Helm
      client) are the nodes of a command tree [Prog]; running a tree
      against a handler yields the calls made in order, the result and
      the final state of the collaborators;
    - logrus calls have no influence on control flow and are left out. *)

From Stdlib Require Import ZArith String Ascii List.
From Stdlib.Strings Require Import Byte.
From stdpp Require Import base option gmap strings list fin_maps.

Local Open Scope string_scope.

#[global] Instance byte_eq_dec : EqDecision byte := Byte.byte_eq_dec.

(** ** Errors

    [k8s.io/kubernetes/pkg/api/errors] classifies an error by the reason
    of its status; any other Go error (for instance one made by
    [fmt.Errorf]) has the unknown reason. *)

Inductive StatusReason : Type :=
| StatusReasonUnknown
| StatusReasonUnauthorized
| StatusReasonForbidden
| StatusReasonNotFound
| StatusReasonAlreadyExists
| StatusReasonConflict
| StatusReasonInvalid
| StatusReasonServerTimeout
| StatusReasonInternalError.

#[global] Instance StatusReason_eq_dec : EqDecision StatusReason.
Proof. solve_decision. Defined.

Inductive error : Type :=
| StatusError (reason : StatusReason) (message : string)
| errorString (message : string).

#[global] Instance error_eq_dec : EqDecision error.
Proof. solve_decision. Defined.

Definition reasonForError (err : option error) : StatusReason :=
  match err with
  | Some (StatusError reason _) => reason
  | _ => StatusReasonUnknown
  end.

Definition IsNotFound (err : option error) : bool :=
  bool_decide (reasonForError err = StatusReasonNotFound).

Definition IsAlreadyExists (err : option error) : bool :=
  bool_decide (reasonForError err = StatusReasonAlreadyExists).

(** ** Secrets and API objects *)

(** [type Secrets []string] *)
Abbreviation Secrets := (list string).

(** [type SecretValues map[string][]byte] *)
Abbreviation SecretValues := (gmap string (list byte)).

(** [api.Secret] and [api.Namespace], with the fields the code sets or reads. *)
Record Secret : Type := mkSecret {
  Secret_Name : string;
  Secret_Data : SecretValues
}.

Record Namespace : Type := mkNamespace {
  Namespace_Name : string
}.

(** [chart.Chart] with its templates; the only field read is [Data]. *)
Record Template : Type := mkTemplate {
  Template_Data : list byte
}.

Record Chart : Type := mkChart {
  Chart_Templates : list Template
}.

(** ** Calls to the collaborators *)

Inductive Call : Type :=
| Secrets_Get (namespace name : string)
| Secrets_Create (namespace : string) (secret : Secret)
| Secrets_Delete (namespace name : string)
| Namespaces_Create (ns : Namespace)
| ChartLoader_Load (chartRef : string)
| Helm_UpdateRelease (rlsName chStr : string).

(** What each call answers.  [Secrets(ns).Get] answers a secret or an
    error (the typed client never answers a nil secret with a nil error);
    the object answered by the two [Create] calls is dropped by the code,
    so only their error is kept. *)
Definition Resp (c : Call) : Type :=
  match c with
  | Secrets_Get _ _ => (Secret + error)%type
  | Secrets_Create _ _ => option error
  | Secrets_Delete _ _ => option error
  | Namespaces_Create _ => option error
  | ChartLoader_Load _ => (option Chart * string * option error)%type
  | Helm_UpdateRelease _ _ => option error
  end.

Inductive Prog (A : Type) : Type :=
| Return (a : A)
| Do (c : Call) (k : Resp c → Prog A).

Arguments Return {A} a.
Arguments Do {A} c k.

Fixpoint Prog_bind {A B : Type} (f : A → Prog B) (p : Prog A) : Prog B :=
  match p with
  | Return a => f a
  | Do c k => Do c (λ r, Prog_bind f (k r))
  end.

#[global] Instance Prog_MRet : MRet Prog := @Return.
#[global] Instance Prog_MBind : MBind Prog := @Prog_bind.

Definition call (c : Call) : Prog (Resp c) := Do c Return.

(** A handler answers a call in a state of the collaborators. *)
Definition Handler (W : Type) : Type := ∀ c : Call, W → Resp c * W.

Fixpoint run {W A : Type} (h : Handler W) (p : Prog A) (w : W)
  : list Call * A * W :=
  match p with
  | Return a => ([], a, w)
  | Do c k =>
      let '(r, w1) := h c w in
      let '(log, a, w2) := run h (k r) w1 in
      (c :: log, a, w2)
  end.

Definition calls {W A : Type} (h : Handler W) (p : Prog A) (w : W) : list Call :=
  (run h p w).1.1.

Definition result {W A : Type} (h : Handler W) (p : Prog A) (w : W) : A :=
  (run h p w).1.2.

Definition final {W A : Type} (h : Handler W) (p : Prog A) (w : W) : W :=
  (run h p w).2.

(** ** The Kubernetes secrets provider ([secrets.go]) *)

Module kubeSecretsProvider.

(** [for key, val := range secret.Data { secrets[key] = val }] *)
Definition copyInto (data secrets : SecretValues) : SecretValues :=
  map_fold (λ key val acc, <[key := val]> acc) secrets data.

(** [Read] answers the map (None is Go's nil map) and the error. *)
Definition Read (componentName namespace : string) (secretNames : list string)
  : Prog (option SecretValues * option error) :=
  let secrets : SecretValues := ∅ in
  r ← call (Secrets_Get namespace componentName);
  match r with
  | inr err =>
      if IsNotFound (Some err) then mret (Some secrets, None)
      else mret (None, Some err)
  | inl secret =>
      mret (Some (copyInto (Secret_Data secret) secrets), None)
  end.

Definition ensureNamespace (namespace : string) : Prog (option error) :=
  err ← call (Namespaces_Create (mkNamespace namespace));
  if IsAlreadyExists err then mret None else mret err.

Definition Write (componentName namespace : string) (secrets : SecretValues)
  : Prog (option error) :=
  err ← ensureNamespace namespace;
  match err with
  | Some _ => mret err
  | None =>
      err ← call (Secrets_Create namespace (mkSecret componentName secrets));
      match err with
      | Some _ => mret err
      | None => mret None
      end
  end.

Definition Delete (componentName namespace : string) : Prog (option error) :=
  err ← call (Secrets_Delete namespace componentName);
  match err with
  | Some _ =>
      if IsNotFound err then mret None else mret err
  | None => mret None
  end.

End kubeSecretsProvider.

(** ** The environment secrets reader ([secrets.go]) *)

(** The pieces of Go's [strings] and [os] packages the reader calls. *)
Module strings.

Fixpoint Map (f : ascii → ascii) (s : string) : string :=
  match s with
  | EmptyString => EmptyString
  | String c s' => String (f c) (Map f s')
  end.

Fixpoint all (p : ascii → bool) (s : string) : bool :=
  match s with
  | EmptyString => true
  | String c s' => p c && all p s'
  end.

(** [c < utf8.RuneSelf] *)
Definition isASCIIByte (c : ascii) : bool := (N_of_ascii c <? 128)%N.

(** [if 'a' <= c && c <= 'z' { c -= 'a' - 'A' }] *)
Definition upperByte (c : ascii) : ascii :=
  let n := N_of_ascii c in
  if ((97 <=? n) && (n <=? 122))%N then ascii_of_N (n - 32) else c.

Section ToUpper.
(** [strings.Map(unicode.ToUpper, s)], the path Go takes for a string
    with a byte outside ASCII; the Unicode case tables are not part
    of this development. *)
Variable unicodeToUpper : string → string.

Definition ToUpper (s : string) : string :=
  if all isASCIIByte s then Map upperByte s else unicodeToUpper s.
End ToUpper.

Fixpoint HasPrefix (s prefix : string) : bool :=
  match prefix, s with
  | EmptyString, _ => true
  | String p prefix', String c s' => bool_decide (p = c) && HasPrefix s' prefix'
  | String _ _, EmptyString => false
  end.

Fixpoint Contains (s substr : string) : bool :=
  HasPrefix s substr ||
  match s with
  | EmptyString => false
  | String _ s' => Contains s' substr
  end.

(** The scan of [Replace]: [skip] bytes of a match just replaced are
    still to be dropped; [n] replacements remain ([n < 0]: no limit). *)
Fixpoint replaceScan (old new : string) (n : Z) (skip : nat) (s : string) : string :=
  match s with
  | EmptyString => EmptyString
  | String c s' =>
      match skip with
      | S skip' => replaceScan old new n skip' s'
      | O =>
          if negb (n =? 0)%Z && HasPrefix s old
          then new ++ replaceScan old new (n - 1) (String.length old - 1) s'
          else String c (replaceScan old new n 0 s')
      end
  end.

(** [strings.Replace(s, old, new, n)] for a non-empty [old]; with an
    empty [old] Go inserts [new] at rune boundaries, which is not
    modelled (the string is answered as it is). *)
Definition Replace (s old new : string) (n : Z) : string :=
  match old with
  | EmptyString => s
  | String _ _ => if bool_decide (old = new) then s else replaceScan old new n 0 s
  end.

End strings.

Module os.

(** The process environment; [Getenv] answers the empty string for a
    variable that is not set (and for the empty name). *)
Definition Getenv (environ : gmap string string) (key : string) : string :=
  match key with
  | EmptyString => EmptyString
  | String _ _ => default EmptyString (environ !! key)
  end.

End os.

Module environmentSecrets.

Section Read.
Variable unicodeToUpper : string → string.
Variable environ : gmap string string.

Definition envName (key : string) : string :=
  strings.Replace (strings.ToUpper unicodeToUpper key) "-" "_" (-1).

(** The body of the loop over [secretNames]. *)
Definition readOne (secs : SecretValues) (key : string) : SecretValues :=
  let secretValue := os.Getenv environ (envName key) in
  <[key := list_byte_of_string secretValue]> secs.

Definition Read (componentName namespace : string) (secretNames : list string)
  : option SecretValues * option error :=
  let secs : SecretValues := fold_left readOne secretNames ∅ in
  (Some secs, None).
End Read.

End environmentSecrets.

(** ** The API server behind the Kubernetes client

    The client of [kubeSecretsProvider] is an interface of
    [k8s.io/kubernetes]; the provider relies on its contract through
    [errors.IsNotFound] and [errors.IsAlreadyExists].  [Cluster] is that
    contract for the four calls made: objects are kept per namespace and
    name, [Create] refuses a name that is taken with AlreadyExists, [Get]
    and [Delete] refuse a name that is absent with NotFound. *)

Record Cluster : Type := mkCluster {
  Cluster_namespaces : gset string;
  Cluster_secrets : gmap (string * string) SecretValues
}.

(** [errors.NewNotFound], [errors.NewAlreadyExists] (the message names
    the kind and the object). *)
Definition NewNotFound (kind name : string) : error :=
  StatusError StatusReasonNotFound (kind ++ " " ++ name ++ " not found").

Definition NewAlreadyExists (kind name : string) : error :=
  StatusError StatusReasonAlreadyExists (kind ++ " " ++ name ++ " already exists").

Definition Cluster_getSecret (namespace name : string) (cl : Cluster) : Secret + error :=
  match Cluster_secrets cl !! (namespace, name) with
  | Some data => inl (mkSecret name data)
  | None => inr (NewNotFound "secrets" name)
  end.

Definition Cluster_createSecret (namespace : string) (secret : Secret) (cl : Cluster)
  : option error * Cluster :=
  if bool_decide (namespace ∈ Cluster_namespaces cl) then
    match Cluster_secrets cl !! (namespace, Secret_Name secret) with
    | Some _ => (Some (NewAlreadyExists "secrets" (Secret_Name secret)), cl)
    | None =>
        (None,
         mkCluster (Cluster_namespaces cl)
           (<[(namespace, Secret_Name secret) := Secret_Data secret]> (Cluster_secrets cl)))
    end
  else (Some (NewNotFound "namespaces" namespace), cl).

Definition Cluster_deleteSecret (namespace name : string) (cl : Cluster)
  : option error * Cluster :=
  match Cluster_secrets cl !! (namespace, name) with
  | Some _ =>
      (None,
       mkCluster (Cluster_namespaces cl)
         (base.delete (namespace, name) (Cluster_secrets cl)))
  | None => (Some (NewNotFound "secrets" name), cl)
  end.

Definition Cluster_createNamespace (ns : Namespace) (cl : Cluster)
  : option error * Cluster :=
  if bool_decide (Namespace_Name ns ∈ Cluster_namespaces cl)
  then (Some (NewAlreadyExists "namespaces" (Namespace_Name ns)), cl)
  else (None, mkCluster ({[Namespace_Name ns]} ∪ Cluster_namespaces cl) (Cluster_secrets cl)).

(** The collaborators of an executor run: the cluster, and the chart
    loader and Helm client given as functions, as [MockChartLoader] and
    [HelmclientMock] of the tests are. *)
Record World : Type := mkWorld {
  World_cluster : Cluster;
  World_chartLoader : string → option Chart * string * option error;
  World_updateRelease : string → string → option error
}.

Definition withCluster (w : World) (cl : Cluster) : World :=
  mkWorld cl (World_chartLoader w) (World_updateRelease w).

Definition world : Handler World :=
  λ c,
    match c as c' return World → Resp c' * World with
    | Secrets_Get namespace name =>
        λ w, (Cluster_getSecret namespace name (World_cluster w), w)
    | Secrets_Create namespace secret =>
        λ w, let '(err, cl) := Cluster_createSecret namespace secret (World_cluster w) in
             (err, withCluster w cl)
    | Secrets_Delete namespace name =>
        λ w, let '(err, cl) := Cluster_deleteSecret namespace name (World_cluster w) in
             (err, withCluster w cl)
    | Namespaces_Create ns =>
        λ w, let '(err, cl) := Cluster_createNamespace ns (World_cluster w) in
             (err, withCluster w cl)
    | ChartLoader_Load chartRef =>
        λ w, (World_chartLoader w chartRef, w)
    | Helm_UpdateRelease rlsName chStr =>
        λ w, (World_updateRelease w rlsName chStr, w)
    end.

(** A client whose every request fails with the same error (an
    unreachable or refusing API server). *)
Definition failing (err : error) : Handler unit :=
  λ c,
    match c as c' return unit → Resp c' * unit with
    | Secrets_Get _ _ => λ w, (inr err, w)
    | Secrets_Create _ _ => λ w, (Some err, w)
    | Secrets_Delete _ _ => λ w, (Some err, w)
    | Namespaces_Create _ => λ w, (Some err, w)
    | ChartLoader_Load _ => λ w, ((None, EmptyString, Some err), w)
    | Helm_UpdateRelease _ _ => λ w, (Some err, w)
    end.

(** ** The component model

    The declarations of [Component], [Release], [Configuration],
    [Metadata] and [Components] are missing from the source files; the
    fields follow the data model of the design document and the
    composite literals of [executor_test.go]. *)

(** Modelled from the spec: the scalar values of a configuration (the
    declaration is missing; the tests use strings and integers). *)
Inductive Scalar : Type :=
| ScalarString (s : string)
| ScalarInt (n : Z)
| ScalarBool (b : bool).

#[global] Instance Scalar_eq_dec : EqDecision Scalar.
Proof. solve_decision. Defined.

(** Modelled from the spec: the metadata injected into a configuration,
    with the fields [SetMetadata] is given in the tests. *)
Record Metadata : Type := mkMetadata {
  ChartRepository : string;
  ReleaseVersion : string
}.

#[global] Instance Metadata_eq_dec : EqDecision Metadata.
Proof. solve_decision. Defined.

(** Modelled from the spec: the release reference of a component. *)
Record Release : Type := mkRelease {
  Release_Chart : string;
  Release_Version : string
}.

#[global] Instance Release_eq_dec : EqDecision Release.
Proof. solve_decision. Defined.

(** Modelled from the spec: a mapping from keys to scalar values that
    may carry injected metadata ([SetMetadata]). *)
Record Configuration : Type := mkConfiguration {
  Configuration_values : gmap string Scalar;
  Configuration_metadata : option Metadata
}.

#[global] Instance Configuration_eq_dec : EqDecision Configuration.
Proof. solve_decision. Defined.

(** Modelled from the spec: the component of section 3; [Release] is a
    pointer in the tests and may be nil. *)
Record Component : Type := mkComponent {
  Component_Name : string;
  Component_Namespace : string;
  Component_Release : option Release;
  Component_Configuration : Configuration;
  Component_Secrets : Secrets;
  Component_SecretValues : SecretValues
}.

#[global] Instance Component_eq_dec : EqDecision Component.
Proof. solve_decision. Defined.

(** [type Components map[string]*Component] *)
Abbreviation Components := (gmap string Component).

(** Modelled from the spec: the equality of components used for
    diffing, which looks at every field except [SecretValues]. *)
Definition Equals (a b : Component) : bool :=
  bool_decide (Component_Name a = Component_Name b)
  && bool_decide (Component_Namespace a = Component_Namespace b)
  && bool_decide (Component_Release a = Component_Release b)
  && bool_decide (Component_Configuration a = Component_Configuration b)
  && bool_decide (Component_Secrets a = Component_Secrets b).

(** Modelled from the spec: the package reference
    [<repository>/<chart>], the repository coming from the metadata of
    the configuration.  The spec leaves open what is built without
    metadata or without a release; the missing part is taken as empty. *)
Definition FullChartRef (cmp : Component) : string :=
  let repository :=
    match Configuration_metadata (Component_Configuration cmp) with
    | Some m => ChartRepository m
    | None => EmptyString
    end in
  let chart :=
    match Component_Release cmp with
    | Some r => Release_Chart r
    | None => EmptyString
    end in
  repository ++ "/" ++ chart.

(** ** The reconciliation engine

    [diff], [isOnlySecretValueDiff], [integrateForcedUpdates],
    [isCronJob] and [UpdateComponent] live in the executor source file,
    which is missing; they follow sections 4.1 to 4.4 of the design
    document. *)

(** Modelled from the spec: the pass over [desired] of the differ of
    section 4.1, which fills [create] and [update]; a second pass, over
    [current], fills [delete]. *)
Definition diffDesired (current : Components) (name : string) (desiredCmp : Component)
    (acc : Components * Components) : Components * Components :=
  let '(create, update) := acc in
  match current !! name with
  | Some currentCmp =>
      if Equals desiredCmp currentCmp then (create, update)
      else (create, <[name := desiredCmp]> update)
  | None => (<[name := desiredCmp]> create, update)
  end.

(** Modelled from the spec: the pass over [current] of the differ. *)
Definition diffCurrent (desired : Components) (name : string) (currentCmp : Component)
    (delete : Components) : Components :=
  match desired !! name with
  | Some _ => delete
  | None => <[name := currentCmp]> delete
  end.

(** Modelled from the spec: [diff(desired, current)] of section 4.1. *)
Definition diff (desired current : Components) : Components * Components * Components :=
  let '(create, update) := map_fold (diffDesired current) (∅, ∅) desired in
  let delete := map_fold (diffCurrent desired) ∅ current in
  (create, update, delete).

(** Modelled from the spec: true iff the two components are identical
    in every field except [SecretValues] and [SecretValues] differs. *)
Definition isOnlySecretValueDiff (a b : Component) : bool :=
  if bool_decide (Component_SecretValues a = Component_SecretValues b) then false
  else Equals a b.

(** [needForcedUpdate[name]] on a [map[string]bool]: false when absent. *)
Definition flagged (needForcedUpdate : gmap string bool) (name : string) : bool :=
  default false (needForcedUpdate !! name).

(** Modelled from the spec: the integrator of section 4.3.  For a
    flagged name of [update] the entry leaves [update], the current
    value goes to [delete] and the desired value to [create].  The spec
    does not say what goes to [delete] when [current] has no entry of
    that name; [delete] is then left as it is. *)
Definition integrateOne (current : Components) (needForcedUpdate : gmap string bool)
    (name : string) (desiredCmp : Component)
    (acc : Components * Components * Components) : Components * Components * Components :=
  let '(create, update, delete) := acc in
  if flagged needForcedUpdate name then
    (<[name := desiredCmp]> create,
     base.delete name update,
     match current !! name with
     | Some currentCmp => <[name := currentCmp]> delete
     | None => delete
     end)
  else (create, update, delete).

(** Modelled from the spec: [integrateForcedUpdates] of section 4.3, a
    pass over the names of [update]. *)
Definition integrateForcedUpdates (current create update delete : Components)
    (needForcedUpdate : gmap string bool) : Components * Components * Components :=
  map_fold (integrateOne current needForcedUpdate) (create, update, delete) update.

(** Modelled from the spec: the marker of a scheduled workload in a
    rendered template, and the bodies of the templates of a loaded chart
    (none for a nil chart). *)
Definition cronJobMarker : string := "type: ScheduledJob".

Definition templateBodies (ch : option Chart) : list string :=
  match ch with
  | Some c => map (λ t, string_of_list_byte (Template_Data t)) (Chart_Templates c)
  | None => []
  end.

(** Modelled from the spec: the detector of section 4.2.  The package
    reference is resolved, the chart loaded, and the template bodies are
    searched for the marker; an error of the loader is answered as it
    is. *)
Definition isCronJob (cmp : Component) : Prog (bool * option error) :=
  '(ch, _, err) ← call (ChartLoader_Load (FullChartRef cmp));
  match err with
  | Some _ => mret (false, err)
  | None =>
      mret (existsb (λ body, strings.Contains body cronJobMarker) (templateBodies ch),
            None)
  end.

(** [SecretsWriteDeleter] of [secrets.go], and its two implementations:
    the Kubernetes provider and a [SecretsProviderMock] answering nil. *)
Record SecretsWriteDeleter : Type := mkSecretsWriteDeleter {
  SecretsWriteDeleter_Write : string → string → SecretValues → Prog (option error);
  SecretsWriteDeleter_Delete : string → string → Prog (option error)
}.


Definition SecretsProviderMock : SecretsWriteDeleter :=
  mkSecretsWriteDeleter (λ _ _ _, mret None) (λ _ _, mret None).

(** Modelled from the spec: the executor as [NewExecutor] builds it
    (the Helm client and the chart loader are reached through calls). *)
Record executor : Type := mkExecutor {
  executor_secretsProvider : SecretsWriteDeleter;
  executor_dryRun : bool;
  executor_force : bool
}.

(** Modelled from the spec: [UpdateComponent] of section 4.4: resolve
    and load the package, write the secret values, then update the
    release named after the component with the artifact path of the
    loader; a dry run leaves the release update out. *)
Definition UpdateComponent (e : executor) (cmp : Component) : Prog (option error) :=
  '(_, chartPath, err) ← call (ChartLoader_Load (FullChartRef cmp));
  match err with
  | Some _ => mret err
  | None =>
      err ← SecretsWriteDeleter_Write (executor_secretsProvider e)
              (Component_Name cmp) (Component_Namespace cmp) (Component_SecretValues cmp);
      match err with
      | Some _ => mret err
      | None =>
          if executor_dryRun e then mret None
          else call (Helm_UpdateRelease (Component_Name cmp) chartPath)
      end
  end.

(** ** The fixtures of [executor_test.go] *)

Definition newTestComponent (name : string) : Component :=
  mkComponent name "myNameSpace"
    (Some (mkRelease "connector-hdfs:0.1.0" "1.0.0"))
    (mkConfiguration
       (<["GroupID" := ScalarString "hdfs-rtwind"]>
        (<["HdfsUrl" := ScalarString "hdfs://hadoop:8020"]>
        (<["PartitionField" := ScalarString "partition1"]>
        (<["TasksMax" := ScalarInt 1]>
        (<["Topics" := ScalarString "topic1,topic2"]>
        (<["FlushSize" := ScalarInt 3]>
        (<["FilenameOffsetZeroPadWidth" := ScalarInt 1]> ∅)))))))
       (Some (mkMetadata "repo" "1.0.0")))
    ["TestSecret1"; "TestSecret2"]
    (<["TestSecret1" := list_byte_of_string "secret value 1"]>
     (<["TestSecret2" := list_byte_of_string "secret value 2"]> ∅)).

(** [&Component{Name: name}] and [&Component{Name: name, Release: &Release{Chart: chart}}] *)
Definition bareComponent (name : string) (release : option Release) : Component :=
  mkComponent name EmptyString release (mkConfiguration ∅ None) [] ∅.

Definition testDiffCurrent : Components :=
  <["cmpA" := bareComponent "cmpA" None]>
  (<["cmpB" := bareComponent "cmpB" (Some (mkRelease "chart1" EmptyString))]>
  (<["cmpC" := bareComponent "cmpC" None]> ∅)).

Definition testDiffDesired : Components :=
  <["cmpD" := bareComponent "cmpD" None]>
  (<["cmpB" := bareComponent "cmpB" (Some (mkRelease "chart2" EmptyString))]>
  (<["cmpC" := bareComponent "cmpC" None]> ∅)).

(** The chart loader of [TestIsCronJob] for one rig. *)
Definition rigChartLoader (data : string) (err : option error)
  : string → option Chart * string * option error :=
  λ _, (Some (mkChart [mkTemplate (list_byte_of_string data)]), EmptyString, err).

(** The collaborators of [TestExecutorUpdate] with a cluster behind the
    secrets provider. *)
Definition testChartPath : string := "/opt/store/whatever/path/".

Definition testWorld (cl : Cluster) : World :=
  mkWorld cl (λ _, (None, testChartPath, None)) (λ _ _, None).

Definition emptyCluster : Cluster := mkCluster ∅ ∅.

(** A cluster that already holds secret values for component [y]. *)
Definition priorValues : SecretValues :=
  <["TestSecret1" := list_byte_of_string "old value"]> ∅.

Definition clusterWithPrior : Cluster :=
  mkCluster {["myNameSpace"]} (<[("myNameSpace", "y") := priorValues]> ∅).

(** Whether the answer to the namespace creation lets [Write] go on:
    nil, or an AlreadyExists error. *)
Definition namespaceReady (err : option error) : bool :=
  match err with
  | None => true
  | Some _ => IsAlreadyExists err
  end.

(** The replacement of [-] by [_] on one byte. *)
Definition dashToUnderscore (c : ascii) : ascii :=
  if bool_decide (c = "-"%char) then "_"%char else c.

(** The environment of the examples: one secret is set, one is not. *)
Definition testEnviron : gmap string string :=
  <["TEST_SECRET1" := "s3cr3t"]> ∅.

(** Two components agree on every field except [SecretValues]. *)
Definition sameExceptSecretValues (a b : Component) : Prop :=
  Component_Name a = Component_Name b
  ∧ Component_Namespace a = Component_Namespace b
  ∧ Component_Release a = Component_Release b
  ∧ Component_Configuration a = Component_Configuration b
  ∧ Component_Secrets a = Component_Secrets b.

(** The expected sets of [TestExecutorDiff]. *)
Definition testDiffCreate : Components :=
  <["cmpD" := bareComponent "cmpD" None]> ∅.

Definition testDiffUpdate : Components :=
  <["cmpB" := bareComponent "cmpB" (Some (mkRelease "chart2" EmptyString))]> ∅.

Definition testDiffDelete : Components :=
  <["cmpA" := bareComponent "cmpA" None]> ∅.

(** The sets of [TestIntegrateForcedUpdates]. *)
Definition testForcedCurrent : Components :=
  <["U" := newTestComponent "U"]>
  (<["F" := newTestComponent "F"]> (<["D" := newTestComponent "D"]> ∅)).

Definition testForcedCreate : Components := <["C" := newTestComponent "C"]> ∅.

Definition testForcedUpdate : Components :=
  <["U" := newTestComponent "U"]> (<["F" := newTestComponent "F"]> ∅).

Definition testForcedDelete : Components := <["D" := newTestComponent "D"]> ∅.

Definition testNeedForcedUpdate : gmap string bool := <["F" := true]> ∅.

(** The components of [TestIsOnlySecretValueDiff]: [b.Name = b.Name + "X"]
    and [c.SecretValues["x"] = []byte("y")] on copies of the fixture. *)
Definition testComponentB : Component :=
  let a := newTestComponent "a" in
  mkComponent (Component_Name a ++ "X") (Component_Namespace a) (Component_Release a)
    (Component_Configuration a) (Component_Secrets a) (Component_SecretValues a).

Definition testComponentC : Component :=
  let a := newTestComponent "a" in
  mkComponent (Component_Name a) (Component_Namespace a) (Component_Release a)
    (Component_Configuration a) (Component_Secrets a)
    (<["x" := list_byte_of_string "y"]> (Component_SecretValues a)).

(** [marker] occurs in [body]. *)
Definition occursIn (marker body : string) : Prop :=
  ∃ before after : string, body = before ++ marker ++ after.

(** The collaborators of one rig of [TestIsCronJob]. *)
Definition rigWorld (data : string) (err : option error) : World :=
  mkWorld emptyCluster (rigChartLoader data err) (λ _ _, None).


(** ** Contracts of a client and shapes of variable names *)

(** A client on which a secret that was created can be got back. *)
Definition getsWhatWasCreated {W : Type} (h : Handler W) : Prop :=
  ∀ (w : W) (namespace : string) (secret : Secret),
    (h (Secrets_Create namespace secret) w).1 = None →
    (h (Secrets_Get namespace (Secret_Name secret))
       (h (Secrets_Create namespace secret) w).2).1 = inl secret.

(** A client on which a secret is not found once a delete request for
    it answered nil or NotFound. *)
Definition deletedIsGone {W : Type} (h : Handler W) : Prop :=
  ∀ (w : W) (namespace name : string),
    (h (Secrets_Delete namespace name) w).1 = None
    ∨ IsNotFound (h (Secrets_Delete namespace name) w).1 = true →
    ∃ e : error,
      (h (Secrets_Get namespace name) (h (Secrets_Delete namespace name) w).2).1 = inr e
      ∧ IsNotFound (Some e) = true.

(** ['a' <= c && c <= 'z'] *)
Definition isLowerByte (c : ascii) : bool :=
  let n := N_of_ascii c in ((97 <=? n) && (n <=? 122))%N.

Definition isDash (c : ascii) : bool := bool_decide (c = "-"%char).

(** A byte of a variable name made from an ASCII secret name: ASCII,
    no lower-case letter, no dash. *)
Definition variableByte (c : ascii) : bool :=
  strings.isASCIIByte c && negb (isLowerByte c) && negb (isDash c).

(** * Properties *)

(** ** Running command trees *)

Lemma run_bind {W A B : Type} (h : Handler W) (p : Prog A) (f : A → Prog B) (w : W) :
  run h (p ≫= f) w =
  let '(log1, a, w1) := run h p w in
  let '(log2, b, w2) := run h (f a) w1 in
  ((log1 ++ log2)%list, b, w2).
Proof.
  revert w. induction p as [a | c k IH]; intros w; simpl.
  - unfold mbind, Prog_MBind. simpl. by destruct (run h (f a) w) as [[??]?].
  - unfold mbind, Prog_MBind in *. simpl.
    destruct (h c w) as [r w1]. rewrite IH.
    destruct (run h (k r) w1) as [[log1 a] w2].
    by destruct (run h (f a) w2) as [[??]?].
Qed.

Lemma run_call {W : Type} (h : Handler W) (c : Call) (w : W) :
  run h (call c) w = ([c], (h c w).1, (h c w).2).
Proof. unfold call. simpl. by destruct (h c w). Qed.

(** ** The Kubernetes secrets provider *)

Lemma copyInto_empty (data : SecretValues) :
  kubeSecretsProvider.copyInto data ∅ = data.
Proof.
  unfold kubeSecretsProvider.copyInto.
  apply (map_fold_weak_ind (λ (acc m : SecretValues), acc = m)).
  - done.
  - intros key val m acc _ ->. done.
Qed.

Lemma Read_run {W : Type} (h : Handler W) (w : W)
    (componentName namespace : string) (secretNames : list string) :
  run h (kubeSecretsProvider.Read componentName namespace secretNames) w =
  ([Secrets_Get namespace componentName],
   match (h (Secrets_Get namespace componentName) w).1 with
   | inr err =>
       if IsNotFound (Some err) then (Some ∅, None) else (None, Some err)
   | inl secret => (Some (Secret_Data secret), None)
   end,
   (h (Secrets_Get namespace componentName) w).2).
Proof.
  unfold kubeSecretsProvider.Read.
  rewrite run_bind, (run_call h (Secrets_Get namespace componentName)). simpl.
  destruct (h (Secrets_Get namespace componentName) w) as [[secret | err] w1]; simpl.
  - by rewrite copyInto_empty.
  - by destruct (IsNotFound (Some err)).
Qed.

(** C6: when the client reports an error for the secret object, [Read]
    answers an empty (non-nil) mapping and a nil error if the error is
    NotFound, and otherwise a nil mapping together with that very
    error. *)
Theorem Read_missing_secret_is_empty {W : Type} (h : Handler W) (w : W)
    (componentName namespace : string) (secretNames : list string) (err : error) :
  (h (Secrets_Get namespace componentName) w).1 = inr err →
  result h (kubeSecretsProvider.Read componentName namespace secretNames) w =
  if IsNotFound (Some err) then (Some ∅, None) else (None, Some err).
Proof.
  intros Hget. unfold result. rewrite Read_run. cbn [fst snd]. by rewrite Hget.
Qed.

Lemma Read_missing_secret_is_empty_witness :
  ((world (Secrets_Get "myNameSpace" "y") (testWorld emptyCluster)).1
     = inr (NewNotFound "secrets" "y")
   ∧ result world (kubeSecretsProvider.Read "y" "myNameSpace" ["TestSecret1"])
       (testWorld emptyCluster) = (Some ∅, None))
  ∧ ((failing (StatusError StatusReasonForbidden "forbidden")
        (Secrets_Get "myNameSpace" "y") tt).1
       = inr (StatusError StatusReasonForbidden "forbidden")
     ∧ result (failing (StatusError StatusReasonForbidden "forbidden"))
         (kubeSecretsProvider.Read "y" "myNameSpace" ["TestSecret1"]) tt
       = (None, Some (StatusError StatusReasonForbidden "forbidden"))).
Proof.
  split; split.
  - reflexivity.
  - exact (Read_missing_secret_is_empty world (testWorld emptyCluster)
             "y" "myNameSpace" ["TestSecret1"] (NewNotFound "secrets" "y") eq_refl).
  - reflexivity.
  - exact (Read_missing_secret_is_empty
             (failing (StatusError StatusReasonForbidden "forbidden")) tt
             "y" "myNameSpace" ["TestSecret1"]
             (StatusError StatusReasonForbidden "forbidden") eq_refl).
Defined.

Lemma Delete_run {W : Type} (h : Handler W) (w : W) (componentName namespace : string) :
  run h (kubeSecretsProvider.Delete componentName namespace) w =
  ([Secrets_Delete namespace componentName],
   (let err := (h (Secrets_Delete namespace componentName) w).1 in
    if IsNotFound err then None else err),
   (h (Secrets_Delete namespace componentName) w).2).
Proof.
  unfold kubeSecretsProvider.Delete.
  rewrite run_bind, (run_call h (Secrets_Delete namespace componentName)). simpl.
  destruct (h (Secrets_Delete namespace componentName) w) as [[err|] w1]; simpl.
  - by destruct (IsNotFound (Some err)).
  - done.
Qed.

(** C7: [Delete] makes one delete request for the secret object; a
    NotFound answer of the client becomes a nil error, and every other
    answer (nil or an error) is handed back as it is. *)
Theorem Delete_absent_is_success {W : Type} (h : Handler W) (w : W)
    (componentName namespace : string) :
  calls h (kubeSecretsProvider.Delete componentName namespace) w
    = [Secrets_Delete namespace componentName]
  ∧ result h (kubeSecretsProvider.Delete componentName namespace) w
    = (let err := (h (Secrets_Delete namespace componentName) w).1 in
       if IsNotFound err then None else err).
Proof. unfold calls, result. by rewrite Delete_run. Qed.

Lemma ensureNamespace_run {W : Type} (h : Handler W) (w : W) (namespace : string) :
  run h (kubeSecretsProvider.ensureNamespace namespace) w =
  ([Namespaces_Create (mkNamespace namespace)],
   (let err := (h (Namespaces_Create (mkNamespace namespace)) w).1 in
    if IsAlreadyExists err then None else err),
   (h (Namespaces_Create (mkNamespace namespace)) w).2).
Proof.
  unfold kubeSecretsProvider.ensureNamespace.
  rewrite run_bind, (run_call h (Namespaces_Create (mkNamespace namespace))). simpl.
  destruct (h (Namespaces_Create (mkNamespace namespace)) w) as [err w1]; simpl.
  by destruct (IsAlreadyExists err).
Qed.

Lemma Write_run {W : Type} (h : Handler W) (w : W)
    (componentName namespace : string) (secrets : SecretValues) :
  let nsCall := Namespaces_Create (mkNamespace namespace) in
  let secretCall := Secrets_Create namespace (mkSecret componentName secrets) in
  run h (kubeSecretsProvider.Write componentName namespace secrets) w =
  if namespaceReady (h nsCall w).1
  then ([nsCall; secretCall],
        (h secretCall (h nsCall w).2).1,
        (h secretCall (h nsCall w).2).2)
  else ([nsCall], (h nsCall w).1, (h nsCall w).2).
Proof.
  intros nsCall secretCall. unfold kubeSecretsProvider.Write.
  rewrite run_bind, ensureNamespace_run. fold nsCall. cbn zeta.
  destruct (h nsCall w) as [nsErr w1]. cbn [fst snd].
  destruct nsErr as [e|]; cbn [namespaceReady].
  - destruct (IsAlreadyExists (Some e)); [|done].
    cbn. fold secretCall. by destruct (h secretCall w1) as [[e'|] w2].
  - replace (IsAlreadyExists None) with false by done.
    cbn. fold secretCall. by destruct (h secretCall w1) as [[e'|] w2].
Qed.

(** C8: [Write] first asks for the creation of the target namespace.
    When that answers nil or AlreadyExists, the secret object named
    after the component, holding the values, is created next in that
    namespace, and the error of [Write] is the one of that creation
    (nil when it succeeds).  Any other answer to the namespace creation
    ends [Write] with that error, no secret being written. *)
Theorem Write_ensures_namespace_first {W : Type} (h : Handler W) (w : W)
    (componentName namespace : string) (secrets : SecretValues) :
  let nsCall := Namespaces_Create (mkNamespace namespace) in
  let secretCall := Secrets_Create namespace (mkSecret componentName secrets) in
  let nsErr := (h nsCall w).1 in
  let prog := kubeSecretsProvider.Write componentName namespace secrets in
  if (bool_decide (nsErr = None) || IsAlreadyExists nsErr)%bool
  then calls h prog w = [nsCall; secretCall]
       ∧ result h prog w = (h secretCall (h nsCall w).2).1
       ∧ final h prog w = (h secretCall (h nsCall w).2).2
  else calls h prog w = [nsCall]
       ∧ result h prog w = nsErr
       ∧ final h prog w = (h nsCall w).2.
Proof.
  intros nsCall secretCall nsErr prog. unfold calls, result, final, prog.
  rewrite Write_run. fold nsCall secretCall nsErr.
  destruct nsErr as [e|]; simpl.
  - by destruct (IsAlreadyExists (Some e)).
  - done.
Qed.

(** C10: the answer of [Read] does not depend on [secretNames]: two
    calls that differ only in the requested names make the same request
    and yield the same mapping, error and final state; and when the
    secret object exists, the mapping holds every key of its data. *)
Theorem Read_ignores_secretNames {W : Type} (h : Handler W) (w : W)
    (componentName namespace : string) (secretNames1 secretNames2 : list string) :
  run h (kubeSecretsProvider.Read componentName namespace secretNames1) w
  = run h (kubeSecretsProvider.Read componentName namespace secretNames2) w
  ∧ ∀ secret : Secret,
      (h (Secrets_Get namespace componentName) w).1 = inl secret →
      result h (kubeSecretsProvider.Read componentName namespace secretNames1) w
      = (Some (Secret_Data secret), None).
Proof.
  split; [by rewrite !Read_run|].
  intros secret Hget. unfold result. rewrite Read_run. cbn [fst snd]. by rewrite Hget.
Qed.

Lemma Read_ignores_secretNames_witness :
  (world (Secrets_Get "myNameSpace" "y") (testWorld clusterWithPrior)).1
    = inl (mkSecret "y" priorValues)
  ∧ run world (kubeSecretsProvider.Read "y" "myNameSpace" []) (testWorld clusterWithPrior)
    = run world (kubeSecretsProvider.Read "y" "myNameSpace" ["TestSecret2"])
        (testWorld clusterWithPrior)
  ∧ result world (kubeSecretsProvider.Read "y" "myNameSpace" [])
      (testWorld clusterWithPrior)
    = (Some priorValues, None).
Proof.
  split; [reflexivity|].
  pose proof (Read_ignores_secretNames world (testWorld clusterWithPrior)
                "y" "myNameSpace" [] ["TestSecret2"]) as [Hsame Hall].
  split; [exact Hsame|].
  exact (Hall (mkSecret "y" priorValues) eq_refl).
Defined.

(** ** The environment secrets reader *)

Lemma HasPrefix_empty (s : string) : strings.HasPrefix s EmptyString = true.
Proof. by destruct s. Qed.

Lemma replaceScan_dash (n : Z) (s : string) :
  (n < 0)%Z →
  strings.replaceScan "-" "_" n 0 s = strings.Map dashToUnderscore s.
Proof.
  revert n. induction s as [|c s IH]; intros n Hn; [done|].
  cbn [strings.replaceScan strings.Map strings.HasPrefix].
  replace (negb (n =? 0)%Z) with true
    by (symmetry; apply negb_true_iff, Z.eqb_neq; lia).
  unfold dashToUnderscore at 1. rewrite HasPrefix_empty, andb_true_l, andb_true_r.
  rewrite (bool_decide_ext ("-"%char = c) (c = "-"%char)) by done.
  case_bool_decide.
  - cbn [String.length Nat.sub String.append]. f_equal. apply IH. lia.
  - f_equal. by apply IH.
Qed.

Lemma Replace_dash (s : string) :
  strings.Replace s "-" "_" (-1) = strings.Map dashToUnderscore s.
Proof. unfold strings.Replace. cbn. by apply replaceScan_dash. Qed.

Lemma fold_readOne_lookup (unicodeToUpper : string → string) (environ : gmap string string)
    (secretNames : list string) (secs : SecretValues) (key : string) :
  fold_left (environmentSecrets.readOne unicodeToUpper environ) secretNames secs !! key =
  if bool_decide (key ∈ secretNames)
  then Some (list_byte_of_string
               (os.Getenv environ (environmentSecrets.envName unicodeToUpper key)))
  else secs !! key.
Proof.
  revert secs. induction secretNames as [|name names IH]; intros secs; simpl.
  - done.
  - rewrite IH. unfold environmentSecrets.readOne at 1.
    destruct (decide (key = name)) as [->|Hne].
    + rewrite lookup_insert_eq.
      rewrite (bool_decide_eq_true_2 (name ∈ name :: names)) by set_solver.
      by case_bool_decide.
    + rewrite lookup_insert_ne by done.
      rewrite (bool_decide_ext (key ∈ name :: names) (key ∈ names)); [done|].
      rewrite elem_of_cons. split; [by intros [?|?] | by right].
Qed.

(** C9: the reader answers a non-nil mapping and a nil error.  The
    entry of every requested name is the value of the environment
    variable whose name is the secret name in upper case with every [-]
    turned into [_]; a variable that is unset or empty gives the empty
    byte value; names that were not requested have no entry. *)
Theorem environment_Read_upper_underscore (unicodeToUpper : string → string)
    (environ : gmap string string) (componentName namespace : string)
    (secretNames : list string) :
  ∃ secs : SecretValues,
    environmentSecrets.Read unicodeToUpper environ componentName namespace secretNames
      = (Some secs, None)
    ∧ ∀ key : string,
        let variable :=
          strings.Map dashToUnderscore (strings.ToUpper unicodeToUpper key) in
        (key ∈ secretNames →
           secs !! key = Some (list_byte_of_string (os.Getenv environ variable)))
        ∧ (key ∈ secretNames →
             environ !! variable = None ∨ environ !! variable = Some EmptyString →
             secs !! key = Some [])
        ∧ (key ∉ secretNames → secs !! key = None).
Proof.
  eexists. split; [reflexivity|].
  intros key variable.
  assert (Hname : environmentSecrets.envName unicodeToUpper key = variable)
    by apply Replace_dash.
  rewrite fold_readOne_lookup, Hname.
  split; [|split].
  - intros Hin. by rewrite bool_decide_eq_true_2.
  - intros Hin Hunset. rewrite bool_decide_eq_true_2 by done.
    do 2 f_equal. unfold os.Getenv.
    destruct variable; [done|]. by destruct Hunset as [-> | ->].
  - intros Hnotin. by rewrite bool_decide_eq_false_2.
Qed.

Lemma environment_Read_upper_underscore_witness :
  ∃ secs : SecretValues,
    environmentSecrets.Read (λ s, s) testEnviron "y" "myNameSpace"
      ["test-secret1"; "missing-one"] = (Some secs, None)
    ∧ secs !! "test-secret1" = Some (list_byte_of_string "s3cr3t")
    ∧ testEnviron !! "MISSING_ONE" = None
    ∧ secs !! "missing-one" = Some []
    ∧ secs !! "other" = None.
Proof.
  destruct (environment_Read_upper_underscore (λ s, s) testEnviron "y" "myNameSpace"
              ["test-secret1"; "missing-one"]) as (secs & Hread & Hkeys).
  assert (Hin1 : "test-secret1" ∈ ["test-secret1"; "missing-one"])
    by (by apply (bool_decide_unpack _)).
  assert (Hin2 : "missing-one" ∈ ["test-secret1"; "missing-one"])
    by (by apply (bool_decide_unpack _)).
  assert (Hout : "other" ∉ ["test-secret1"; "missing-one"])
    by (by apply (bool_decide_unpack _)).
  exists secs. split; [exact Hread|].
  split; [exact (proj1 (Hkeys "test-secret1") Hin1)|].
  split; [reflexivity|].
  split; [exact (proj1 (proj2 (Hkeys "missing-one")) Hin2 (or_introl eq_refl))|].
  exact (proj2 (proj2 (Hkeys "other")) Hout).
Defined.

(** ** The differ *)

Lemma Equals_spec (a b : Component) :
  Equals a b = true ↔ sameExceptSecretValues a b.
Proof.
  unfold Equals, sameExceptSecretValues.
  rewrite !andb_true_iff, !bool_decide_eq_true. tauto.
Qed.

Lemma Equals_false (a b : Component) :
  Equals a b = false ↔ ¬ sameExceptSecretValues a b.
Proof. rewrite <- Equals_spec. by destruct (Equals a b). Qed.

Lemma diffDesired_fold (current desired : Components) (name : string) :
  (map_fold (diffDesired current) (∅, ∅) desired).1 !! name =
    match desired !! name, current !! name with
    | Some d, None => Some d
    | _, _ => None
    end
  ∧ (map_fold (diffDesired current) (∅, ∅) desired).2 !! name =
    match desired !! name, current !! name with
    | Some d, Some c => if Equals d c then None else Some d
    | _, _ => None
    end.
Proof.
  revert name.
  apply (map_fold_weak_ind (λ (acc : Components * Components) (m : Components),
    ∀ name,
      acc.1 !! name =
        match m !! name, current !! name with
        | Some d, None => Some d
        | _, _ => None
        end
      ∧ acc.2 !! name =
        match m !! name, current !! name with
        | Some d, Some c => if Equals d c then None else Some d
        | _, _ => None
        end)).
  - intros name. by rewrite !lookup_empty.
  - intros i d m [create update] Hfresh IH name.
    destruct (IH name) as [IHc IHu]. cbn [fst snd] in IHc, IHu.
    unfold diffDesired.
    destruct (decide (i = name)) as [->|Hne].
    + rewrite lookup_insert_eq. rewrite Hfresh in IHc, IHu.
      destruct (current !! name) as [c|] eqn:Hcur.
      * destruct (Equals d c); cbn [fst snd]; [done|].
        by rewrite lookup_insert_eq.
      * cbn [fst snd]. by rewrite lookup_insert_eq.
    + rewrite (lookup_insert_ne m) by done.
      destruct (current !! i) as [c|].
      * destruct (Equals d c); cbn [fst snd]; [done|].
        by rewrite lookup_insert_ne.
      * cbn [fst snd]. by rewrite lookup_insert_ne.
Qed.

Lemma diffCurrent_fold (desired current : Components) (name : string) :
  map_fold (diffCurrent desired) ∅ current !! name =
    match current !! name, desired !! name with
    | Some c, None => Some c
    | _, _ => None
    end.
Proof.
  revert name.
  apply (map_fold_weak_ind (λ (acc m : Components),
    ∀ name,
      acc !! name =
        match m !! name, desired !! name with
        | Some c, None => Some c
        | _, _ => None
        end)).
  - intros name. by rewrite !lookup_empty.
  - intros i c m acc Hfresh IH name. specialize (IH name).
    unfold diffCurrent.
    destruct (decide (i = name)) as [->|Hne].
    + rewrite lookup_insert_eq. rewrite Hfresh in IH.
      destruct (desired !! name); [done|]. by rewrite lookup_insert_eq.
    + rewrite (lookup_insert_ne m) by done.
      destruct (desired !! i); [done|]. by rewrite lookup_insert_ne.
Qed.

(** C1: in the three sets answered by [diff], a name of [desired] that
    [current] lacks is in [create] with its desired value; a name of
    [current] that [desired] lacks is in [delete]; a name of both whose
    components differ in a field other than [SecretValues] is in
    [update] with the desired value; and a name of both whose
    components agree on every field other than [SecretValues] is in
    none of the sets. *)
Theorem diff_classifies (desired current create update delete : Components) :
  diff desired current = (create, update, delete) →
  ∀ name : string,
    (∀ d, desired !! name = Some d → current !! name = None →
          create !! name = Some d)
    ∧ (∀ c, current !! name = Some c → desired !! name = None →
            delete !! name = Some c)
    ∧ (∀ d c, desired !! name = Some d → current !! name = Some c →
              ¬ sameExceptSecretValues d c →
              update !! name = Some d)
    ∧ (∀ d c, desired !! name = Some d → current !! name = Some c →
              sameExceptSecretValues d c →
              create !! name = None ∧ update !! name = None ∧ delete !! name = None).
Proof.
  unfold diff. intros Hdiff name.
  destruct (diffDesired_fold current desired name) as [Hc Hu].
  pose proof (diffCurrent_fold desired current name) as Hd.
  destruct (map_fold (diffDesired current) (∅, ∅) desired) as [create' update'].
  injection Hdiff as <- <- <-. cbn [fst snd] in Hc, Hu.
  rewrite Hc, Hu, Hd. clear Hc Hu Hd.
  split; [|split; [|split]].
  - by intros d -> ->.
  - by intros c -> ->.
  - intros d c -> -> Hne%Equals_false. by rewrite Hne.
  - intros d c -> -> Heq%Equals_spec. by rewrite Heq.
Qed.

Lemma diff_classifies_witness :
  diff testDiffDesired testDiffCurrent = (testDiffCreate, testDiffUpdate, testDiffDelete)
  ∧ testDiffCreate !! "cmpD" = Some (bareComponent "cmpD" None)
  ∧ testDiffDelete !! "cmpA" = Some (bareComponent "cmpA" None)
  ∧ testDiffUpdate !! "cmpB"
    = Some (bareComponent "cmpB" (Some (mkRelease "chart2" EmptyString)))
  ∧ (testDiffCreate !! "cmpC" = None ∧ testDiffUpdate !! "cmpC" = None
     ∧ testDiffDelete !! "cmpC" = None).
Proof.
  assert (Hdiff : diff testDiffDesired testDiffCurrent
                  = (testDiffCreate, testDiffUpdate, testDiffDelete))
    by (vm_compute; reflexivity).
  pose proof (diff_classifies _ _ _ _ _ Hdiff) as Hall.
  split; [exact Hdiff|].
  split; [exact (proj1 (Hall "cmpD") _ eq_refl eq_refl)|].
  split; [exact (proj1 (proj2 (Hall "cmpA")) _ eq_refl eq_refl)|].
  split.
  - refine (proj1 (proj2 (proj2 (Hall "cmpB"))) _ _ eq_refl eq_refl _).
    intros (_ & _ & Hrelease & _). discriminate Hrelease.
  - refine (proj2 (proj2 (proj2 (Hall "cmpC"))) _ _ eq_refl eq_refl _).
    by repeat split.
Defined.

(** ** The forced-update integrator *)

Lemma flagged_true (needForcedUpdate : gmap string bool) (name : string) :
  flagged needForcedUpdate name = true ↔ needForcedUpdate !! name = Some true.
Proof.
  unfold flagged. destruct (needForcedUpdate !! name) as [[]|]; simpl; split; congruence.
Qed.

Lemma integrateOne_fold (current : Components) (needForcedUpdate : gmap string bool)
    (create update0 delete m : Components) (name : string) :
  let r := map_fold (integrateOne current needForcedUpdate) (create, update0, delete) m in
  let forced :=
    match m !! name with
    | Some _ => flagged needForcedUpdate name
    | None => false
    end in
  r.1.1 !! name = (if forced then m !! name else create !! name)
  ∧ r.1.2 !! name = (if forced then None else update0 !! name)
  ∧ r.2 !! name =
      (if forced
       then match current !! name with Some c => Some c | None => delete !! name end
       else delete !! name).
Proof.
  cbv zeta. revert name.
  apply (map_fold_weak_ind
    (λ (acc : Components * Components * Components) (m : Components),
      ∀ name,
        acc.1.1 !! name
          = (if match m !! name with
                | Some _ => flagged needForcedUpdate name
                | None => false
                end
             then m !! name else create !! name)
        ∧ acc.1.2 !! name
          = (if match m !! name with
                | Some _ => flagged needForcedUpdate name
                | None => false
                end
             then None else update0 !! name)
        ∧ acc.2 !! name
          = (if match m !! name with
                | Some _ => flagged needForcedUpdate name
                | None => false
                end
             then match current !! name with
                  | Some c => Some c
                  | None => delete !! name
                  end
             else delete !! name))).
  - intros name. by rewrite lookup_empty.
  - intros i d m' [[create' update'] delete'] Hfresh IH name.
    destruct (IH name) as (IHc & IHu & IHd). cbn [fst snd] in IHc, IHu, IHd.
    unfold integrateOne.
    destruct (decide (i = name)) as [->|Hne].
    + rewrite lookup_insert_eq. rewrite Hfresh in IHc, IHu, IHd.
      destruct (flagged needForcedUpdate name); cbn [fst snd].
      * rewrite lookup_insert_eq, lookup_delete_eq.
        destruct (current !! name); [by rewrite lookup_insert_eq|done].
      * done.
    + rewrite (lookup_insert_ne m') by done.
      destruct (flagged needForcedUpdate i); cbn [fst snd]; [|done].
      rewrite lookup_insert_ne, lookup_delete_ne by done.
      destruct (current !! i); [by rewrite lookup_insert_ne|done].
Qed.

(** C2: in the sets answered by [integrateForcedUpdates], a name of
    [update] that is flagged true has left [update], its desired
    component (the one [update] held) is in [create], and the component
    [current] holds for it is in [delete]; at every other name, the
    three sets are as they were given. *)
Theorem integrateForcedUpdates_moves_flagged
    (current create update delete : Components) (needForcedUpdate : gmap string bool)
    (create' update' delete' : Components) :
  integrateForcedUpdates current create update delete needForcedUpdate
    = (create', update', delete') →
  ∀ name : string,
    (∀ d, update !! name = Some d → needForcedUpdate !! name = Some true →
          update' !! name = None
          ∧ create' !! name = Some d
          ∧ ∀ c, current !! name = Some c → delete' !! name = Some c)
    ∧ (update !! name = None ∨ needForcedUpdate !! name ≠ Some true →
         create' !! name = create !! name
         ∧ update' !! name = update !! name
         ∧ delete' !! name = delete !! name).
Proof.
  unfold integrateForcedUpdates. intros Hint name.
  destruct (integrateOne_fold current needForcedUpdate create update delete update name)
    as (Hc & Hu & Hd).
  rewrite Hint in Hc, Hu, Hd. cbn [fst snd] in Hc, Hu, Hd.
  rewrite Hc, Hu, Hd. clear Hc Hu Hd Hint. split.
  - intros d Hupd Hflag%flagged_true. rewrite Hupd, Hflag.
    split; [done|]. split; [done|]. by intros c ->.
  - intros [Hupd | Hflag].
    + by rewrite Hupd.
    + rewrite <- flagged_true in Hflag. apply not_true_is_false in Hflag.
      rewrite Hflag. by destruct (update !! name).
Qed.

Lemma integrateForcedUpdates_moves_flagged_witness :
  integrateForcedUpdates testForcedCurrent testForcedCreate testForcedUpdate
    testForcedDelete testNeedForcedUpdate
  = (<["C" := newTestComponent "C"]> (<["F" := newTestComponent "F"]> ∅),
     <["U" := newTestComponent "U"]> ∅,
     <["D" := newTestComponent "D"]> (<["F" := newTestComponent "F"]> ∅))
  ∧ (testForcedUpdate !! "F" = Some (newTestComponent "F")
     ∧ testNeedForcedUpdate !! "F" = Some true
     ∧ (<["U" := newTestComponent "U"]> ∅ : Components) !! "F" = None)
  ∧ (testNeedForcedUpdate !! "U" ≠ Some true
     ∧ (<["U" := newTestComponent "U"]> ∅ : Components) !! "U"
       = testForcedUpdate !! "U").
Proof.
  assert (Hint : integrateForcedUpdates testForcedCurrent testForcedCreate
                   testForcedUpdate testForcedDelete testNeedForcedUpdate
                 = (<["C" := newTestComponent "C"]> (<["F" := newTestComponent "F"]> ∅),
                    <["U" := newTestComponent "U"]> ∅,
                    <["D" := newTestComponent "D"]> (<["F" := newTestComponent "F"]> ∅)))
    by (vm_compute; reflexivity).
  pose proof (integrateForcedUpdates_moves_flagged _ _ _ _ _ _ _ _ Hint) as Hall.
  assert (HU : testNeedForcedUpdate !! "U" ≠ Some true) by discriminate.
  split; [exact Hint|]. split.
  - split; [reflexivity|]. split; [reflexivity|].
    exact (proj1 (proj1 (Hall "F") _ eq_refl eq_refl)).
  - split; [exact HU|].
    exact (proj1 (proj2 (proj2 (Hall "U") (or_intror HU)))).
Defined.

(** ** Secret-only differences *)

(** C3: [isOnlySecretValueDiff a b] holds exactly when [a] and [b]
    agree on every field except [SecretValues] and their [SecretValues]
    differ; it is false on a component and itself, and false whenever a
    field other than [SecretValues] differs, whatever the secret values
    are. *)
Theorem isOnlySecretValueDiff_iff (a b : Component) :
  (isOnlySecretValueDiff a b = true ↔
     sameExceptSecretValues a b
     ∧ Component_SecretValues a ≠ Component_SecretValues b)
  ∧ isOnlySecretValueDiff a a = false
  ∧ (¬ sameExceptSecretValues a b → isOnlySecretValueDiff a b = false).
Proof.
  unfold isOnlySecretValueDiff. split; [|split].
  - case_bool_decide as Hsv.
    + split; [done|]. by intros [_ ?].
    + rewrite Equals_spec. tauto.
  - by rewrite bool_decide_eq_true_2.
  - intros Hne%Equals_false. rewrite Hne. by case_bool_decide.
Qed.

Lemma isOnlySecretValueDiff_iff_witness :
  isOnlySecretValueDiff (newTestComponent "a") (newTestComponent "a") = false
  ∧ (¬ sameExceptSecretValues (newTestComponent "a") testComponentB
     ∧ isOnlySecretValueDiff (newTestComponent "a") testComponentB = false)
  ∧ (sameExceptSecretValues (newTestComponent "a") testComponentC
     ∧ Component_SecretValues (newTestComponent "a") ≠ Component_SecretValues testComponentC
     ∧ isOnlySecretValueDiff (newTestComponent "a") testComponentC = true).
Proof.
  assert (HB : ¬ sameExceptSecretValues (newTestComponent "a") testComponentB)
    by (intros [Hname _]; discriminate Hname).
  assert (HC : sameExceptSecretValues (newTestComponent "a") testComponentC)
    by (by repeat split).
  assert (HSV : Component_SecretValues (newTestComponent "a")
                ≠ Component_SecretValues testComponentC).
  { intros Heq. apply (f_equal (λ m : SecretValues, m !! "x")) in Heq.
    vm_compute in Heq. discriminate Heq. }
  split; [exact (proj1 (proj2 (isOnlySecretValueDiff_iff (newTestComponent "a")
                                 (newTestComponent "a"))))|].
  split.
  - split; [exact HB|].
    exact (proj2 (proj2 (isOnlySecretValueDiff_iff (newTestComponent "a") testComponentB)) HB).
  - split; [exact HC|]. split; [exact HSV|].
    exact (proj2 (proj1 (isOnlySecretValueDiff_iff (newTestComponent "a") testComponentC))
             (conj HC HSV)).
Defined.

(** ** The detector of scheduled workloads *)

Lemma HasPrefix_spec (s prefix : string) :
  strings.HasPrefix s prefix = true ↔ ∃ rest : string, s = prefix ++ rest.
Proof.
  revert s. induction prefix as [|p prefix IH]; intros s.
  - rewrite HasPrefix_empty. split; [|done]. intros _. by exists s.
  - destruct s as [|c s]; cbn [strings.HasPrefix].
    + split; [done|]. by intros [rest ?].
    + rewrite andb_true_iff, bool_decide_eq_true, IH. split.
      * intros [-> [rest ->]]. by exists rest.
      * intros [rest Heq]. injection Heq as -> ->. eauto.
Qed.

Lemma Contains_spec (s substr : string) :
  strings.Contains s substr = true ↔ occursIn substr s.
Proof.
  unfold occursIn. induction s as [|c s IH]; cbn [strings.Contains].
  - rewrite orb_false_r, HasPrefix_spec. split.
    + intros [rest ->]. by exists EmptyString, rest.
    + intros ([|??] & rest & Heq); [by exists rest|discriminate Heq].
  - rewrite orb_true_iff, HasPrefix_spec, IH. split.
    + intros [[rest ->] | (before & rest & ->)].
      * by exists EmptyString, rest.
      * by exists (String c before), rest.
    + intros ([|c' before] & rest & Heq).
      * left. by exists rest.
      * right. injection Heq as -> ->. by exists before, rest.
Qed.

Lemma isCronJob_run {W : Type} (h : Handler W) (w : W) (cmp : Component) :
  run h (isCronJob cmp) w =
  ([ChartLoader_Load (FullChartRef cmp)],
   (let '(ch, _, err) := (h (ChartLoader_Load (FullChartRef cmp)) w).1 in
    match err with
    | Some _ => (false, err)
    | None =>
        (existsb (λ body, strings.Contains body cronJobMarker) (templateBodies ch), None)
    end),
   (h (ChartLoader_Load (FullChartRef cmp)) w).2).
Proof.
  unfold isCronJob. cbn.
  destruct (h (ChartLoader_Load (FullChartRef cmp)) w) as [[[ch path] [e|]] w1]; done.
Qed.

(** C4: [isCronJob] asks the loader for the chart of the component.
    When the loader answers an error, that error is the error of
    [isCronJob]; otherwise the error is nil and the answer is true
    exactly when the marker text occurs in the body of some template of
    the loaded chart (and false otherwise). *)
Theorem isCronJob_detects_marker {W : Type} (h : Handler W) (w : W) (cmp : Component)
    (ch : option Chart) (path : string) (err : option error) :
  (h (ChartLoader_Load (FullChartRef cmp)) w).1 = (ch, path, err) →
  match err with
  | Some e => result h (isCronJob cmp) w = (false, Some e)
  | None =>
      (result h (isCronJob cmp) w).2 = None
      ∧ ((result h (isCronJob cmp) w).1 = true ↔
           ∃ body, body ∈ templateBodies ch ∧ occursIn "type: ScheduledJob" body)
  end.
Proof.
  intros Hload. unfold result. rewrite isCronJob_run. cbn [fst snd].
  rewrite Hload. destruct err as [e|]; [done|]. cbn [fst snd].
  split; [done|]. rewrite existsb_exists. split.
  - intros (body & Hin%list_elem_of_In & Hcontains%Contains_spec). eauto.
  - intros (body & Hin%list_elem_of_In & Hoccurs%Contains_spec). eauto.
Qed.

Lemma isCronJob_detects_marker_witness :
  result world (isCronJob (newTestComponent "x")) (rigWorld "type: ScheduledJob" None)
    = (true, None)
  ∧ result world (isCronJob (newTestComponent "x"))
      (rigWorld "disaster" (Some (errorString "broken")))
    = (false, Some (errorString "broken"))
  ∧ result world (isCronJob (newTestComponent "x")) (rigWorld "no i am no cron" None)
    = (false, None).
Proof.
  split; [|split].
  - pose proof (isCronJob_detects_marker world (rigWorld "type: ScheduledJob" None)
                  (newTestComponent "x") _ _ None eq_refl) as [Herr Htrue].
    apply injective_projections; [|exact Herr].
    apply Htrue. exists "type: ScheduledJob". split.
    + apply list_elem_of_In. by left.
    + by exists EmptyString, EmptyString.
  - exact (isCronJob_detects_marker world
             (rigWorld "disaster" (Some (errorString "broken")))
             (newTestComponent "x") _ _ (Some (errorString "broken")) eq_refl).
  - reflexivity.
Defined.

(** ** Updating a component *)


(** [Write] against the cluster: the namespace is there afterwards, and
    the secret object is created only where the name is still free. *)
Lemma Write_on_cluster (w : World) (componentName namespace : string)
    (secrets : SecretValues) :
  let prog := kubeSecretsProvider.Write componentName namespace secrets in
  let stored := Cluster_secrets (World_cluster w) in
  calls world prog w
    = [Namespaces_Create (mkNamespace namespace);
       Secrets_Create namespace (mkSecret componentName secrets)]
  ∧ result world prog w
    = match stored !! (namespace, componentName) with
      | Some _ => Some (NewAlreadyExists "secrets" componentName)
      | None => None
      end
  ∧ Cluster_secrets (World_cluster (final world prog w))
    = match stored !! (namespace, componentName) with
      | Some _ => stored
      | None => <[(namespace, componentName) := secrets]> stored
      end
  ∧ World_chartLoader (final world prog w) = World_chartLoader w
  ∧ World_updateRelease (final world prog w) = World_updateRelease w.
Proof.
  intros prog stored. unfold calls, result, final, prog.
  rewrite Write_run. cbn [world fst snd].
  unfold Cluster_createNamespace. cbn [Namespace_Name].
  destruct w as [[namespaces secs] loader upd]. cbn in stored. subst stored.
  cbn [World_cluster Cluster_namespaces Cluster_secrets].
  case_bool_decide as Hns; cbn [fst snd namespaceReady withCluster World_cluster].
  - replace (IsAlreadyExists (Some (NewAlreadyExists "namespaces" namespace)))
      with true by done.
    cbn [fst snd]. unfold Cluster_createSecret.
    cbn [Cluster_namespaces Cluster_secrets Secret_Name Secret_Data].
    rewrite bool_decide_eq_true_2 by done.
    by destruct (secs !! (namespace, componentName)).
  - unfold Cluster_createSecret.
    cbn [Cluster_namespaces Cluster_secrets Secret_Name Secret_Data].
    rewrite bool_decide_eq_true_2 by (apply elem_of_union_l, elem_of_singleton; done).
    by destruct (secs !! (namespace, componentName)).
Qed.

(** [Delete] against the cluster leaves no secret object of that name. *)
Lemma Delete_on_cluster (w : World) (componentName namespace : string) :
  let prog := kubeSecretsProvider.Delete componentName namespace in
  result world prog w = None
  ∧ Cluster_secrets (World_cluster (final world prog w))
    = base.delete (namespace, componentName) (Cluster_secrets (World_cluster w))
  ∧ World_chartLoader (final world prog w) = World_chartLoader w
  ∧ World_updateRelease (final world prog w) = World_updateRelease w.
Proof.
  intros prog. unfold result, final, prog. rewrite Delete_run.
  cbn [world fst snd]. unfold Cluster_deleteSecret.
  destruct w as [[namespaces secs] loader upd].
  cbn [World_cluster Cluster_namespaces Cluster_secrets].
  destruct (secs !! (namespace, componentName)) eqn:Hsec; cbn.
  - done.
  - by rewrite delete_id.
Qed.




(** ** The tests of [executor_test.go] on the model *)

(** [TestExecutorUpdate]: with the mocked secrets provider the chart
    reference is [repo/<chart>] and the release [y] is updated with the
    path of the loader. *)
Example TestExecutorUpdate :
  run world (UpdateComponent (mkExecutor SecretsProviderMock false false)
               (newTestComponent "y")) (testWorld emptyCluster)
  = ([ChartLoader_Load "repo/connector-hdfs:0.1.0";
      Helm_UpdateRelease "y" testChartPath],
     None, testWorld emptyCluster).
Proof. reflexivity. Qed.

(** Writing into a namespace that exists already succeeds, and a second
    [Delete] of the same secret succeeds as the first does. *)
Example Write_into_existing_namespace :
  result world (kubeSecretsProvider.Write "z" "myNameSpace" priorValues)
    (testWorld clusterWithPrior) = None.
Proof. reflexivity. Qed.

Example Delete_twice :
  result world
    (kubeSecretsProvider.Delete "y" "myNameSpace" ≫= λ _,
     kubeSecretsProvider.Delete "y" "myNameSpace")
    (testWorld clusterWithPrior) = None.
Proof. reflexivity. Qed.

(** * Further properties of the secrets providers *)

(** ** What the Kubernetes provider answers, whatever the client *)

(** X1: [Read] makes one request, a get of the secret object, and no
    other; its mapping is nil exactly when its error is not nil, and
    its error is never a NotFound error. *)
Theorem Read_answer_shape {W : Type} (h : Handler W) (w : W)
    (componentName namespace : string) (secretNames : list string) :
  let prog := kubeSecretsProvider.Read componentName namespace secretNames in
  calls h prog w = [Secrets_Get namespace componentName]
  ∧ ((result h prog w).1 = None ↔ (result h prog w).2 ≠ None)
  ∧ IsNotFound (result h prog w).2 = false.
Proof.
  intros prog. unfold calls, result, prog. rewrite Read_run. cbn [fst snd].
  split; [done|].
  destruct (h (Secrets_Get namespace componentName) w).1 as [secret | err].
  - cbn. split; [split; [done|by intros []]|done].
  - destruct (IsNotFound (Some err)) eqn:Hnf; cbn [fst snd].
    + split; [split; [done|by intros []]|done].
    + split; [split; [done|done]|exact Hnf].
Qed.

(** X2: the error of [Delete] is never a NotFound error, and an error
    it answers is the one the client answered to the delete request. *)
Theorem Delete_error_is_never_NotFound {W : Type} (h : Handler W) (w : W)
    (componentName namespace : string) :
  let prog := kubeSecretsProvider.Delete componentName namespace in
  IsNotFound (result h prog w) = false
  ∧ ∀ e : error,
      result h prog w = Some e →
      (h (Secrets_Delete namespace componentName) w).1 = Some e.
Proof.
  intros prog. unfold result, prog. rewrite Delete_run. cbn [fst snd].
  destruct (IsNotFound (h (Secrets_Delete namespace componentName) w).1) eqn:Hnf.
  - split; [done|]. intros e He. discriminate He.
  - split; [exact Hnf|]. by intros e He.
Qed.

Lemma Delete_error_is_never_NotFound_witness :
  result (failing (StatusError StatusReasonForbidden "forbidden"))
    (kubeSecretsProvider.Delete "y" "myNameSpace") tt
    = Some (StatusError StatusReasonForbidden "forbidden")
  ∧ (failing (StatusError StatusReasonForbidden "forbidden")
       (Secrets_Delete "myNameSpace" "y") tt).1
    = Some (StatusError StatusReasonForbidden "forbidden").
Proof.
  split; [reflexivity|].
  exact (proj2 (Delete_error_is_never_NotFound
                  (failing (StatusError StatusReasonForbidden "forbidden")) tt
                  "y" "myNameSpace") _ eq_refl).
Defined.

(** X3: [ensureNamespace] makes one request, the creation of the
    namespace; it answers nil exactly when the client answered nil or
    AlreadyExists, and its own error is never AlreadyExists. *)
Theorem ensureNamespace_absorbs_AlreadyExists {W : Type} (h : Handler W) (w : W)
    (namespace : string) :
  let prog := kubeSecretsProvider.ensureNamespace namespace in
  let answer := (h (Namespaces_Create (mkNamespace namespace)) w).1 in
  calls h prog w = [Namespaces_Create (mkNamespace namespace)]
  ∧ (result h prog w = None ↔ answer = None ∨ IsAlreadyExists answer = true)
  ∧ IsAlreadyExists (result h prog w) = false.
Proof.
  intros prog answer. unfold calls, result, prog.
  rewrite ensureNamespace_run. cbn [fst snd]. fold answer.
  split; [done|].
  destruct (IsAlreadyExists answer) eqn:Hae.
  - split; [|done]. split; [by right|done].
  - split; [|exact Hae]. split; [by left|]. by intros [?|?].
Qed.

(** X4: [Write] answers nil exactly when the namespace creation was
    answered nil or AlreadyExists and the creation of the secret was
    then answered nil.  When the error of [Write] is AlreadyExists, it
    is the secret that exists: both requests were made and the error is
    the answer to the creation of the secret. *)
Theorem Write_success_and_AlreadyExists {W : Type} (h : Handler W) (w : W)
    (componentName namespace : string) (secrets : SecretValues) :
  let nsCall := Namespaces_Create (mkNamespace namespace) in
  let secretCall := Secrets_Create namespace (mkSecret componentName secrets) in
  let prog := kubeSecretsProvider.Write componentName namespace secrets in
  (result h prog w = None ↔
     ((h nsCall w).1 = None ∨ IsAlreadyExists (h nsCall w).1 = true)
     ∧ (h secretCall (h nsCall w).2).1 = None)
  ∧ (IsAlreadyExists (result h prog w) = true →
       calls h prog w = [nsCall; secretCall]
       ∧ result h prog w = (h secretCall (h nsCall w).2).1).
Proof.
  intros nsCall secretCall prog. unfold calls, result, prog.
  rewrite Write_run. fold nsCall secretCall.
  destruct (h nsCall w).1 as [e|] eqn:Hns; cbn [namespaceReady].
  - destruct (IsAlreadyExists (Some e)) eqn:Hae; cbn [fst snd].
    + split; [|done]. split; [by intros ->; split; [right|]|by intros [_ ?]].
    + split.
      * split; [done|]. by intros [[?|?] _].
      * intros Hae'. rewrite Hae' in Hae. discriminate Hae.
  - cbn [fst snd]. split; [|done].
    split; [by intros ->; split; [left|]|by intros [_ ?]].
Qed.

Lemma Write_success_and_AlreadyExists_witness :
  IsAlreadyExists
    (result world (kubeSecretsProvider.Write "y" "myNameSpace" priorValues)
       (testWorld clusterWithPrior)) = true
  ∧ calls world (kubeSecretsProvider.Write "y" "myNameSpace" priorValues)
      (testWorld clusterWithPrior)
    = [Namespaces_Create (mkNamespace "myNameSpace");
       Secrets_Create "myNameSpace" (mkSecret "y" priorValues)].
Proof.
  split; [reflexivity|].
  exact (proj1 (proj2 (Write_success_and_AlreadyExists world (testWorld clusterWithPrior)
                         "y" "myNameSpace" priorValues) eq_refl)).
Defined.

(** ** Round trips through the provider *)

(** X5: on a client that gets back a secret it created, a [Write] that
    answered nil is followed by a [Read] that answers exactly the
    values written, whatever names the reader asks for. *)
Theorem Write_then_Read {W : Type} (h : Handler W) (w : W)
    (componentName namespace : string) (secrets : SecretValues)
    (secretNames : list string) :
  getsWhatWasCreated h →
  result h (kubeSecretsProvider.Write componentName namespace secrets) w = None →
  result h (kubeSecretsProvider.Read componentName namespace secretNames)
    (final h (kubeSecretsProvider.Write componentName namespace secrets) w)
  = (Some secrets, None).
Proof.
  intros Hlaw. unfold result, final. rewrite Write_run, Read_run.
  destruct (h (Namespaces_Create (mkNamespace namespace)) w) as [nsErr w1].
  cbn [fst snd].
  destruct (namespaceReady nsErr) eqn:Hready; cbn [fst snd].
  - intros Hcreated.
    pose proof (Hlaw w1 namespace (mkSecret componentName secrets) Hcreated) as Hget.
    cbn [Secret_Name] in Hget. by rewrite Hget.
  - intros ->. discriminate Hready.
Qed.

Lemma world_getsWhatWasCreated : getsWhatWasCreated world.
Proof.
  intros [[namespaces secs] loader upd] namespace [name data].
  cbn [world World_cluster]. unfold Cluster_createSecret, Cluster_getSecret.
  cbn [Cluster_namespaces Cluster_secrets Secret_Name Secret_Data].
  case_bool_decide; [|done].
  destruct (secs !! (namespace, name)) eqn:Hsec; [done|].
  intros _. cbn. by rewrite lookup_insert_eq.
Qed.

Lemma Write_then_Read_witness :
  result world
    (kubeSecretsProvider.Write "y" "myNameSpace"
       (Component_SecretValues (newTestComponent "y")))
    (testWorld emptyCluster) = None
  ∧ result world (kubeSecretsProvider.Read "y" "myNameSpace" ["TestSecret1"])
      (final world
         (kubeSecretsProvider.Write "y" "myNameSpace"
            (Component_SecretValues (newTestComponent "y")))
         (testWorld emptyCluster))
    = (Some (Component_SecretValues (newTestComponent "y")), None).
Proof.
  split; [reflexivity|].
  exact (Write_then_Read world (testWorld emptyCluster) "y" "myNameSpace"
           (Component_SecretValues (newTestComponent "y")) ["TestSecret1"]
           world_getsWhatWasCreated eq_refl).
Defined.

(** X6: on a client where a deleted secret is gone, [Read] after
    [Delete] answers the empty mapping and a nil error whenever [Delete]
    answered nil. *)
Theorem Delete_then_Read {W : Type} (h : Handler W) (w : W)
    (componentName namespace : string) (secretNames : list string) :
  deletedIsGone h →
  result h (kubeSecretsProvider.Delete componentName namespace) w = None →
  result h (kubeSecretsProvider.Read componentName namespace secretNames)
    (final h (kubeSecretsProvider.Delete componentName namespace) w)
  = (Some ∅, None).
Proof.
  intros Hlaw. unfold result, final. rewrite Delete_run, Read_run. cbn [fst snd].
  intros Hnil.
  destruct (Hlaw w namespace componentName) as (e & Hget & Hnf).
  - destruct (IsNotFound (h (Secrets_Delete namespace componentName) w).1);
      [by right|by left].
  - by rewrite Hget, Hnf.
Qed.

Lemma world_deletedIsGone : deletedIsGone world.
Proof.
  intros [[namespaces secs] loader upd] namespace name _.
  cbn [world World_cluster]. unfold Cluster_deleteSecret, Cluster_getSecret.
  cbn [Cluster_namespaces Cluster_secrets].
  exists (NewNotFound "secrets" name). split; [|done].
  destruct (secs !! (namespace, name)) eqn:Hsec; cbn.
  - by rewrite lookup_delete_eq.
  - by rewrite Hsec.
Qed.

Lemma Delete_then_Read_witness :
  result world (kubeSecretsProvider.Delete "y" "myNameSpace")
    (testWorld clusterWithPrior) = None
  ∧ result world (kubeSecretsProvider.Read "y" "myNameSpace" ["TestSecret1"])
      (final world (kubeSecretsProvider.Delete "y" "myNameSpace")
         (testWorld clusterWithPrior))
    = (Some ∅, None).
Proof.
  split; [reflexivity|].
  exact (Delete_then_Read world (testWorld clusterWithPrior) "y" "myNameSpace"
           ["TestSecret1"] world_deletedIsGone eq_refl).
Defined.

(** ** The provider against the cluster *)

Lemma Read_on_cluster (w : World) (componentName namespace : string)
    (secretNames : list string) :
  result world (kubeSecretsProvider.Read componentName namespace secretNames) w
  = (Some (default ∅ (Cluster_secrets (World_cluster w) !! (namespace, componentName))),
     None).
Proof.
  unfold result. rewrite Read_run. cbn [world fst snd]. unfold Cluster_getSecret.
  by destruct (Cluster_secrets (World_cluster w) !! (namespace, componentName)).
Qed.

Lemma Write_namespaces_on_cluster (w : World) (componentName namespace : string)
    (secrets : SecretValues) :
  let w' := final world (kubeSecretsProvider.Write componentName namespace secrets) w in
  Cluster_namespaces (World_cluster w) ⊆ Cluster_namespaces (World_cluster w')
  ∧ namespace ∈ Cluster_namespaces (World_cluster w').
Proof.
  cbv zeta. unfold final. rewrite Write_run. cbn [world fst snd].
  unfold Cluster_createNamespace. cbn [Namespace_Name].
  destruct w as [[namespaces secs] loader upd].
  cbn [World_cluster Cluster_namespaces Cluster_secrets].
  case_bool_decide as Hns; cbn [fst snd namespaceReady withCluster World_cluster].
  - replace (IsAlreadyExists (Some (NewAlreadyExists "namespaces" namespace)))
      with true by done.
    cbn [fst snd]. unfold Cluster_createSecret.
    cbn [Cluster_namespaces Cluster_secrets Secret_Name Secret_Data].
    rewrite bool_decide_eq_true_2 by done.
    by destruct (secs !! (namespace, componentName)).
  - unfold Cluster_createSecret.
    cbn [Cluster_namespaces Cluster_secrets Secret_Name Secret_Data].
    rewrite bool_decide_eq_true_2 by (apply elem_of_union_l, elem_of_singleton; done).
    destruct (secs !! (namespace, componentName)); cbn;
      (split; [apply union_subseteq_r | apply elem_of_union_l, elem_of_singleton; done]).
Qed.

(** X7: on every cluster, whatever it holds for the component, [Delete]
    followed by [Write] succeeds and a [Read] after them answers the
    values written: deleting first is how values are replaced. *)
Theorem Delete_Write_Read_on_cluster (w : World) (componentName namespace : string)
    (secrets : SecretValues) (secretNames : list string) :
  let w1 := final world (kubeSecretsProvider.Delete componentName namespace) w in
  let w2 := final world (kubeSecretsProvider.Write componentName namespace secrets) w1 in
  result world (kubeSecretsProvider.Delete componentName namespace) w = None
  ∧ result world (kubeSecretsProvider.Write componentName namespace secrets) w1 = None
  ∧ result world (kubeSecretsProvider.Read componentName namespace secretNames) w2
    = (Some secrets, None).
Proof.
  cbv zeta.
  destruct (Delete_on_cluster w componentName namespace) as (Hdel & Hs1 & _ & _).
  cbv zeta in Hdel, Hs1.
  destruct (Write_on_cluster
              (final world (kubeSecretsProvider.Delete componentName namespace) w)
              componentName namespace secrets) as (_ & Hres & Hs2 & _ & _).
  cbv zeta in Hres, Hs2. rewrite Hs1, lookup_delete_eq in Hres, Hs2.
  split; [exact Hdel|]. split; [exact Hres|].
  by rewrite Read_on_cluster, Hs2, lookup_insert_eq.
Qed.

(** X8: on every cluster [Delete] answers nil, leaves no secret object
    of the component, and a second [Delete] changes nothing more. *)
Theorem Delete_idempotent_on_cluster (w : World) (componentName namespace : string) :
  let prog := kubeSecretsProvider.Delete componentName namespace in
  result world prog w = None
  ∧ Cluster_secrets (World_cluster (final world prog w)) !! (namespace, componentName)
    = None
  ∧ result world prog (final world prog w) = None
  ∧ final world prog (final world prog w) = final world prog w.
Proof.
  cbv zeta.
  destruct (Delete_on_cluster w componentName namespace) as (Hdel & Hs & _ & _).
  destruct (Delete_on_cluster
              (final world (kubeSecretsProvider.Delete componentName namespace) w)
              componentName namespace) as (Hdel' & _).
  cbv zeta in *.
  split; [exact Hdel|]. split; [by rewrite Hs, lookup_delete_eq|].
  split; [exact Hdel'|].
  unfold final in *. rewrite !Delete_run. cbn [world fst snd].
  rewrite Delete_run in Hs. cbn [world fst snd] in Hs.
  destruct (Cluster_deleteSecret namespace componentName (World_cluster w))
    as [err cl]. cbn [fst snd withCluster World_cluster] in *.
  unfold Cluster_deleteSecret. rewrite Hs, lookup_delete_eq. by destruct cl.
Qed.

(** X9: on every cluster [Write] touches no secret of another component
    or namespace; when it answers an error no secret has changed at
    all; and the namespaces only grow, the target namespace being among
    them afterwards. *)
Theorem Write_changes_only_its_secret (w : World) (componentName namespace : string)
    (secrets : SecretValues) :
  let prog := kubeSecretsProvider.Write componentName namespace secrets in
  let w' := final world prog w in
  (∀ key : string * string,
     key ≠ (namespace, componentName) →
     Cluster_secrets (World_cluster w') !! key = Cluster_secrets (World_cluster w) !! key)
  ∧ (result world prog w ≠ None →
       Cluster_secrets (World_cluster w') = Cluster_secrets (World_cluster w))
  ∧ Cluster_namespaces (World_cluster w) ⊆ Cluster_namespaces (World_cluster w')
  ∧ namespace ∈ Cluster_namespaces (World_cluster w').
Proof.
  cbv zeta.
  destruct (Write_on_cluster w componentName namespace secrets) as (_ & Hres & Hs & _).
  cbv zeta in Hres, Hs.
  split; [|split; [|apply Write_namespaces_on_cluster]].
  - intros key Hkey. rewrite Hs.
    destruct (Cluster_secrets (World_cluster w) !! (namespace, componentName)); [done|].
    by rewrite lookup_insert_ne.
  - rewrite Hres, Hs.
    by destruct (Cluster_secrets (World_cluster w) !! (namespace, componentName)).
Qed.

Lemma Write_changes_only_its_secret_witness :
  (("myNameSpace", "y") ≠ ("myNameSpace", "z")
   ∧ Cluster_secrets (World_cluster
       (final world (kubeSecretsProvider.Write "z" "myNameSpace" ∅)
          (testWorld clusterWithPrior))) !! ("myNameSpace", "y")
     = Some priorValues)
  ∧ (result world (kubeSecretsProvider.Write "y" "myNameSpace" ∅)
       (testWorld clusterWithPrior) ≠ None
     ∧ Cluster_secrets (World_cluster
         (final world (kubeSecretsProvider.Write "y" "myNameSpace" ∅)
            (testWorld clusterWithPrior)))
       = Cluster_secrets clusterWithPrior).
Proof.
  assert (Hkey : ("myNameSpace", "y") ≠ ("myNameSpace", "z")) by discriminate.
  assert (Herr : result world (kubeSecretsProvider.Write "y" "myNameSpace" ∅)
                   (testWorld clusterWithPrior) ≠ None) by discriminate.
  split.
  - split; [exact Hkey|].
    exact (proj1 (Write_changes_only_its_secret (testWorld clusterWithPrior)
                    "z" "myNameSpace" ∅) _ Hkey).
  - split; [exact Herr|].
    exact (proj1 (proj2 (Write_changes_only_its_secret (testWorld clusterWithPrior)
                           "y" "myNameSpace" ∅)) Herr).
Defined.

(** X10: on every cluster [Delete] touches no other secret and no
    namespace; in particular the namespace that [Write] made sure of is
    still there after the secret is deleted. *)
Theorem Delete_keeps_namespace (w : World) (componentName namespace : string)
    (secrets : SecretValues) :
  let delete := kubeSecretsProvider.Delete componentName namespace in
  let write := kubeSecretsProvider.Write componentName namespace secrets in
  (∀ key : string * string,
     key ≠ (namespace, componentName) →
     Cluster_secrets (World_cluster (final world delete w)) !! key
     = Cluster_secrets (World_cluster w) !! key)
  ∧ Cluster_namespaces (World_cluster (final world delete w))
    = Cluster_namespaces (World_cluster w)
  ∧ namespace ∈ Cluster_namespaces
                  (World_cluster (final world delete (final world write w))).
Proof.
  cbv zeta.
  assert (Hns : ∀ v : World,
            Cluster_namespaces (World_cluster
              (final world (kubeSecretsProvider.Delete componentName namespace) v))
            = Cluster_namespaces (World_cluster v)).
  { intros v. unfold final. rewrite Delete_run. cbn [world fst snd].
    unfold Cluster_deleteSecret.
    by destruct (Cluster_secrets (World_cluster v) !! (namespace, componentName)). }
  split; [|split].
  - intros key Hkey.
    destruct (Delete_on_cluster w componentName namespace) as (_ & Hs & _).
    cbv zeta in Hs. rewrite Hs. by rewrite lookup_delete_ne.
  - apply Hns.
  - rewrite Hns. apply Write_namespaces_on_cluster.
Qed.

Lemma Delete_keeps_namespace_witness :
  ("myNameSpace", "y") ≠ ("myNameSpace", "z")
  ∧ Cluster_secrets (World_cluster
      (final world (kubeSecretsProvider.Delete "z" "myNameSpace")
         (testWorld clusterWithPrior))) !! ("myNameSpace", "y")
    = Some priorValues.
Proof.
  assert (Hkey : ("myNameSpace", "y") ≠ ("myNameSpace", "z")) by discriminate.
  split; [exact Hkey|].
  exact (proj1 (Delete_keeps_namespace (testWorld clusterWithPrior)
                  "z" "myNameSpace" ∅) _ Hkey).
Defined.

(** ** The environment secrets reader: names and entries *)

Lemma envName_Map (unicodeToUpper : string → string) (key : string) :
  environmentSecrets.envName unicodeToUpper key
  = strings.Map dashToUnderscore (strings.ToUpper unicodeToUpper key).
Proof. apply Replace_dash. Qed.

Lemma envName_ascii (unicodeToUpper : string → string) (key : string) :
  strings.all strings.isASCIIByte key = true →
  environmentSecrets.envName unicodeToUpper key
  = strings.Map (λ c, dashToUnderscore (strings.upperByte c)) key.
Proof.
  intros Hascii. rewrite envName_Map. unfold strings.ToUpper. rewrite Hascii.
  clear Hascii. induction key as [|c key IH]; [done|]. cbn. by rewrite IH.
Qed.

Lemma all_Map (p : ascii → bool) (f : ascii → ascii) (s : string) :
  strings.all p (strings.Map f s) = strings.all (λ c, p (f c)) s.
Proof. induction s as [|c s IH]; [done|]. cbn. by rewrite IH. Qed.

Lemma all_impl (p q : ascii → bool) (s : string) :
  (∀ c, p c = true → q c = true) →
  strings.all p s = true → strings.all q s = true.
Proof.
  intros Hpq. induction s as [|c s IH]; [done|]. cbn.
  rewrite !andb_true_iff. intros [Hc Hs]. auto.
Qed.

Lemma length_Map (f : ascii → ascii) (s : string) :
  String.length (strings.Map f s) = String.length s.
Proof. induction s as [|c s IH]; [done|]. cbn. by rewrite IH. Qed.

Lemma Map_ext_all (p : ascii → bool) (f g : ascii → ascii) (s : string) :
  (∀ c, p c = true → f c = g c) →
  strings.all p s = true → strings.Map f s = strings.Map g s.
Proof.
  intros Hfg. induction s as [|c s IH]; [done|]. cbn.
  rewrite andb_true_iff. intros [Hc Hs]. by rewrite (Hfg c Hc), IH.
Qed.

Lemma variableByte_of_ascii (c : ascii) :
  strings.isASCIIByte c = true →
  variableByte (dashToUnderscore (strings.upperByte c)) = true.
Proof. by destruct c as [[] [] [] [] [] [] [] []]. Qed.

Lemma variableByte_fixed (c : ascii) :
  variableByte c = true → dashToUnderscore (strings.upperByte c) = c.
Proof. by destruct c as [[] [] [] [] [] [] [] []]. Qed.

Lemma variableByte_isASCII (c : ascii) :
  variableByte c = true → strings.isASCIIByte c = true.
Proof. unfold variableByte. rewrite !andb_true_iff. tauto. Qed.

Lemma dashToUnderscore_no_dash (c : ascii) : isDash (dashToUnderscore c) = false.
Proof.
  by destruct c as [[] [] [] [] [] [] [] []].
Qed.

Lemma envName_variableBytes (unicodeToUpper : string → string) (key : string) :
  strings.all strings.isASCIIByte key = true →
  strings.all variableByte (environmentSecrets.envName unicodeToUpper key) = true.
Proof.
  intros Hascii. rewrite envName_ascii, all_Map by done.
  revert Hascii. apply all_impl, variableByte_of_ascii.
Qed.

(** X11: the name of the variable read for a secret never holds a dash;
    for a secret name made of ASCII bytes it is as long as the secret
    name, is ASCII and holds no lower-case letter. *)
Theorem envName_shape (unicodeToUpper : string → string) (key : string) :
  strings.all (λ c, negb (isDash c)) (environmentSecrets.envName unicodeToUpper key) = true
  ∧ (strings.all strings.isASCIIByte key = true →
       String.length (environmentSecrets.envName unicodeToUpper key) = String.length key
       ∧ strings.all variableByte (environmentSecrets.envName unicodeToUpper key) = true).
Proof.
  split.
  - rewrite envName_Map, all_Map.
    generalize (strings.ToUpper unicodeToUpper key). intros s.
    induction s as [|c s IH]; [done|]. cbn. by rewrite dashToUnderscore_no_dash, IH.
  - intros Hascii. split; [|by apply envName_variableBytes].
    rewrite envName_ascii by done. apply length_Map.
Qed.

Lemma envName_shape_witness :
  strings.all strings.isASCIIByte "test-secret1" = true
  ∧ String.length (environmentSecrets.envName (λ s, s) "test-secret1") = 12
  ∧ strings.all variableByte (environmentSecrets.envName (λ s, s) "test-secret1") = true.
Proof.
  split; [reflexivity|].
  exact (proj2 (envName_shape (λ s, s) "test-secret1") eq_refl).
Defined.

(** X12: for a secret name made of ASCII bytes, building the variable
    name again from the variable name gives the same name; so when both
    the secret name and its variable name are requested, the reader
    answers the same value for the two. *)
Theorem envName_idempotent (unicodeToUpper : string → string)
    (environ : gmap string string) (componentName namespace : string)
    (secretNames : list string) (key : string) :
  strings.all strings.isASCIIByte key = true →
  let variable := environmentSecrets.envName unicodeToUpper key in
  environmentSecrets.envName unicodeToUpper variable = variable
  ∧ (key ∈ secretNames → variable ∈ secretNames →
       ∃ secs : SecretValues,
         environmentSecrets.Read unicodeToUpper environ componentName namespace
           secretNames = (Some secs, None)
         ∧ is_Some (secs !! key)
         ∧ secs !! variable = secs !! key).
Proof.
  intros Hascii variable.
  assert (Hvar : strings.all variableByte variable = true)
    by (by apply envName_variableBytes).
  assert (Hidem : environmentSecrets.envName unicodeToUpper variable = variable).
  { rewrite envName_ascii
      by (revert Hvar; apply all_impl, variableByte_isASCII).
    rewrite (Map_ext_all variableByte _ (λ c, c) variable variableByte_fixed Hvar).
    clear. induction variable as [|c s IH]; [done|]. cbn. by rewrite IH. }
  split; [exact Hidem|].
  intros Hkey Hvariable. eexists. split; [reflexivity|].
  rewrite !fold_readOne_lookup, !bool_decide_eq_true_2 by done.
  split; [eauto|]. by rewrite Hidem.
Qed.

Lemma envName_idempotent_witness :
  strings.all strings.isASCIIByte "test-secret1" = true
  ∧ environmentSecrets.envName (λ s, s) "TEST_SECRET1" = "TEST_SECRET1"
  ∧ ∃ secs : SecretValues,
      environmentSecrets.Read (λ s, s) testEnviron "y" "myNameSpace"
        ["test-secret1"; "TEST_SECRET1"] = (Some secs, None)
      ∧ is_Some (secs !! "test-secret1")
      ∧ secs !! "TEST_SECRET1" = secs !! "test-secret1".
Proof.
  pose proof (envName_idempotent (λ s, s) testEnviron "y" "myNameSpace"
                ["test-secret1"; "TEST_SECRET1"] "test-secret1" eq_refl)
    as [Hidem Hsame].
  split; [reflexivity|]. split; [exact Hidem|].
  apply Hsame.
  - by apply (bool_decide_unpack _).
  - by apply (bool_decide_unpack _).
Defined.

(** X13: the mapping answered by the reader has an entry for exactly
    the requested names, and each entry, read back as a string, is the
    value of [os.Getenv] for the variable of that name. *)
Theorem environment_Read_domain (unicodeToUpper : string → string)
    (environ : gmap string string) (componentName namespace : string)
    (secretNames : list string) :
  ∃ secs : SecretValues,
    environmentSecrets.Read unicodeToUpper environ componentName namespace secretNames
      = (Some secs, None)
    ∧ dom secs = list_to_set secretNames
    ∧ ∀ (key : string) (value : list byte),
        secs !! key = Some value →
        string_of_list_byte value
        = os.Getenv environ (environmentSecrets.envName unicodeToUpper key).
Proof.
  eexists. split; [reflexivity|]. split.
  - apply set_eq. intros key.
    rewrite elem_of_dom, fold_readOne_lookup, elem_of_list_to_set.
    case_bool_decide as Hin.
    + split; [done|]. intros _. eauto.
    + rewrite lookup_empty. split; [by intros [? ?]|done].
  - intros key value. rewrite fold_readOne_lookup.
    case_bool_decide; [|by rewrite lookup_empty].
    intros [= <-]. apply string_of_list_byte_of_string.
Qed.

Lemma environment_Read_domain_witness :
  ∃ secs : SecretValues,
    environmentSecrets.Read (λ s, s) testEnviron "y" "myNameSpace"
      ["test-secret1"; "missing-one"] = (Some secs, None)
    ∧ secs !! "test-secret1" = Some (list_byte_of_string "s3cr3t")
    ∧ string_of_list_byte (list_byte_of_string "s3cr3t")
      = os.Getenv testEnviron (environmentSecrets.envName (λ s, s) "test-secret1").
Proof.
  destruct (environment_Read_domain (λ s, s) testEnviron "y" "myNameSpace"
              ["test-secret1"; "missing-one"]) as (secs & Hread & _ & Hvalues).
  assert (Hentry : secs !! "test-secret1" = Some (list_byte_of_string "s3cr3t")).
  { assert (Heq : Some secs = fst (environmentSecrets.Read (λ s, s) testEnviron "y"
                                     "myNameSpace" ["test-secret1"; "missing-one"]))
      by (by rewrite Hread).
    injection Heq as ->. reflexivity. }
  exists secs. split; [exact Hread|]. split; [exact Hentry|].
  exact (Hvalues "test-secret1" _ Hentry).
Defined.

(** X14: the answer of the reader depends only on which names are
    requested: the component name, the namespace, and the order and
    repetition of the requested names make no difference. *)
Theorem environment_Read_same_names (unicodeToUpper : string → string)
    (environ : gmap string string) (componentName1 namespace1 : string)
    (componentName2 namespace2 : string) (secretNames1 secretNames2 : list string) :
  (∀ key : string, key ∈ secretNames1 ↔ key ∈ secretNames2) →
  environmentSecrets.Read unicodeToUpper environ componentName1 namespace1 secretNames1
  = environmentSecrets.Read unicodeToUpper environ componentName2 namespace2 secretNames2.
Proof.
  intros Hsame. unfold environmentSecrets.Read. do 2 f_equal.
  apply map_eq. intros key. rewrite !fold_readOne_lookup.
  by rewrite (bool_decide_ext _ _ (Hsame key)).
Qed.

Lemma environment_Read_same_names_witness :
  environmentSecrets.Read (λ s, s) testEnviron "y" "myNameSpace"
    ["test-secret1"; "missing-one"; "test-secret1"]
  = environmentSecrets.Read (λ s, s) testEnviron "x" "other"
      ["missing-one"; "test-secret1"].
Proof.
  apply environment_Read_same_names. intros key.
  rewrite !elem_of_cons, elem_of_nil. tauto.
Defined.
